(** * BrainFish engine core: a shallow embedding of [engine.cpp] and [main.cpp]

    The engine keeps its mutable state behind a pimpl pointer: a flag
    [initialized_] and an [std::unordered_map<std::string, std::string>]
    called [opening_book_].  Every member function of [brainfish::Engine]
    is embedded as a computation in a state monad over that record, so that
    "does not touch the book" and "does not change the flag" are statements
    about the state a call returns.

    Strings are [string] (a sequence of 8-bit characters, as [std::string]),
    the book is a [gmap string string], and the C++ [int] arguments are [Z]
    (no arithmetic is ever done on them, so no wrap-around can occur). *)

From Stdlib Require Import ZArith Ascii DecimalString DecimalZ.
From stdpp Require Import gmap strings.

(* ===================================================================== *)
(** ** The engine state and its monad *)
(* ===================================================================== *)

(** [class Engine::Implementation]. *)
Record Engine : Type := mkEngine {
  initialized_ : bool;
  opening_book_ : gmap string string
}.

(** [Implementation() : initialized_(false) {}] with a default-constructed
    (empty) map: the state right after [Engine::Engine()]. *)
Definition Engine_new : Engine :=
  {| initialized_ := false; opening_book_ := ∅ |}.

(** A member function returning [A] is a function from the state before the
    call to the result and the state after it. *)
Definition M (A : Type) : Type := Engine → A * Engine.

Definition ret {A} (a : A) : M A := λ e, (a, e).
Definition bind {A B} (m : M A) (k : A → M B) : M B :=
  λ e, let '(a, e') := m e in k a e'.

Notation "'call' x <- m ;; k" := (bind m (λ x, k))
  (at level 10, x name, m at level 99, k at level 200).

(** The primitive accesses to [pimpl->...] used by the member functions. *)
Module Pimpl.

(** read [pimpl->initialized_] *)
Definition get_initialized : M bool := λ e, (initialized_ e, e).

(** [pimpl->initialized_ = b] *)
Definition set_initialized (b : bool) : M unit :=
  λ e, (tt, {| initialized_ := b; opening_book_ := opening_book_ e |}).

(** [pimpl->opening_book_.find(k)]: [None] stands for [end()]. *)
Definition book_find (k : string) : M (option string) :=
  λ e, (opening_book_ e !! k, e).

(** [pimpl->opening_book_[k] = v]: [operator[]] creates the entry when it
    is missing and the assignment then overwrites its value. *)
Definition book_assign (k v : string) : M unit :=
  λ e, (tt, {| initialized_ := initialized_ e;
               opening_book_ := <[k := v]> (opening_book_ e) |}).

End Pimpl.

(** Result and final state of running a member function. *)
Definition result {A} (m : M A) (e : Engine) : A := (m e).1.
Definition after {A} (m : M A) (e : Engine) : Engine := (m e).2.

(* ===================================================================== *)
(** ** The parts of [std::string] and of the streams the code uses *)
(* ===================================================================== *)

Module Std.

(** [s.empty()] *)
Definition empty (s : string) : bool :=
  match s with EmptyString => true | String _ _ => false end.

(** [s.find(c)]: index of the first occurrence of [c], [None] for
    [std::string::npos]. *)
Fixpoint find (c : ascii) (s : string) : option nat :=
  match s with
  | EmptyString => None
  | String x s' =>
      if Ascii.eqb x c then Some 0
      else match find c s' with
           | Some i => Some (S i)
           | None => None
           end
  end.

Definition npos : option nat := None.

(** [it != npos] *)
Definition not_npos (r : option nat) : bool :=
  match r with Some _ => true | None => false end.

(** [std::isspace] in the "C" locale (the program never installs another
    one): space, and the control characters [\t \n \v \f \r]. *)
Definition isspace (c : ascii) : bool :=
  let n := nat_of_ascii c in
  Nat.eqb n 32 || (Nat.leb 9 n && Nat.leb n 13).

(** The sentry of a formatted input function skips leading white space. *)
Fixpoint skipws (s : string) : string :=
  match s with
  | EmptyString => EmptyString
  | String c s' => if isspace c then skipws s' else s
  end.

(** [operator>>(istream&, string&)] then stores characters up to the next
    white space or the end of the stream. *)
Fixpoint take_word (s : string) : string :=
  match s with
  | EmptyString => EmptyString
  | String c s' => if isspace c then EmptyString else String c (take_word s')
  end.

(** [std::istringstream iss(command); std::string cmd; iss >> cmd;]
    When nothing can be extracted the stream fails and [cmd] keeps the
    empty value it was constructed with. *)
Definition extract (command : string) : string :=
  take_word (skipws command).

(** [std::to_string(int)]: the [%d] rendering, a minus sign for negative
    values followed by the decimal digits without leading zeros. *)
Definition to_string (n : Z) : string :=
  NilZero.string_of_int (Z.to_int n).

End Std.

(* ===================================================================== *)
(** ** [engine.cpp] *)
(* ===================================================================== *)

(** The line feed, the escape [\n] of the source's string literals. *)
Definition LF : string := String "010" EmptyString.

Definition startpos : string :=
  "rnbqkbnr/pppppppp/8/8/8/8/PPPPPPPP/RNBQKBNR w KQkq - 0 1".

(** [Engine::validateFEN] *)
Definition validateFEN (fen : string) : bool :=
  negb (Std.empty fen) && Std.not_npos (Std.find "/" fen).

(** [Engine::initializeOpeningBook] *)
Definition initializeOpeningBook : M unit :=
  Pimpl.book_assign startpos "e2e4".

(** [Engine::initialize].  Nothing in the [try] block raises in this model
    (running out of memory is not modelled), so the [catch] branch, the only
    one that returns [false], has no counterpart. *)
Definition initialize (config_path : string) : M bool :=
  call init <- Pimpl.get_initialized ;;
  if init then ret true
  else
    call _ <- initializeOpeningBook ;;
    call _ <- Pimpl.set_initialized true ;;
    ret true.

(** [Engine::processCommand] *)
Definition processCommand (command : string) : M string :=
  call init <- Pimpl.get_initialized ;;
  if negb init then ret "error engine not initialized"
  else
    let cmd := Std.extract command in
    if String.eqb cmd "uci" then
      ret ("id name BrainFish" +:+ LF +:+ "id author BlackBoxAI" +:+ LF +:+ "uciok" +:+ LF)
    else if String.eqb cmd "isready" then ret ("readyok" +:+ LF)
    else if String.eqb cmd "quit" then ret ("quit" +:+ LF)
    else ret ("unknown command" +:+ LF).

(** [Engine::analyzePosition] *)
Definition analyzePosition (fen : string) (depth : Z) : M string :=
  call init <- Pimpl.get_initialized ;;
  if negb init then ret "error engine not initialized"
  else if negb (validateFEN fen) then ret "error invalid fen"
  else
    ret (("info depth " +:+ Std.to_string depth)
           +:+ " score cp 100 pv e2e4 e7e5" +:+ LF).

(** [Engine::queryOpeningBook] *)
Definition queryOpeningBook (fen : string) : M string :=
  call it <- Pimpl.book_find fen ;;
  match it with
  | Some second => ret second
  | None => ret ""
  end.

(** [Engine::getBestMove] *)
Definition getBestMove (fen : string) (time_ms : Z) : M string :=
  call init <- Pimpl.get_initialized ;;
  if negb init then ret "error engine not initialized"
  else if negb (validateFEN fen) then ret "error invalid fen"
  else
    call book_move <- queryOpeningBook fen ;;
    if negb (Std.empty book_move) then ret (("bestmove " +:+ book_move) +:+ LF)
    else ret ("bestmove e2e4" +:+ LF).

(** [Engine::updateOpeningBook] *)
Definition updateOpeningBook (fen move : string) : M bool :=
  if negb (validateFEN fen) then ret false
  else
    call _ <- Pimpl.book_assign fen move ;;
    ret true.



(** Which [return] statement of [Engine::getBestMove] a call leaves through.
    The statement after the book test is the placeholder that stands where
    the search is to be wired in; a call reaches it exactly when it leaves
    through [ReturnSearch]. *)
Inductive Return : Type :=
  | ReturnNotInitialized
  | ReturnInvalidFen
  | ReturnBookMove
  | ReturnSearch.

Definition getBestMove_return (fen : string) (time_ms : Z) (e : Engine) : Return :=
  if negb (initialized_ e) then ReturnNotInitialized
  else if negb (validateFEN fen) then ReturnInvalidFen
  else if negb (Std.empty (result (queryOpeningBook fen) e)) then ReturnBookMove
  else ReturnSearch.

(* ===================================================================== *)
(** ** [main.cpp] *)
(* ===================================================================== *)

(** The [while (std::getline(std::cin, line))] loop.  [lines] are the lines
    standard input still holds, that is the successive results of
    [std::getline]; the loop ends when they are exhausted or at [break].
    It returns what was written to [std::cout], one element per
    [std::cout << response], and the lines that were never read. *)
Fixpoint uci_loop (lines : list string) : M (list string * list string) :=
  match lines with
  | [] => ret ([], [])
  | line :: rest =>
      call response <- processCommand line ;;
      if String.eqb line "quit" then ret ([response], rest)
      else
        call r <- uci_loop rest ;;
        ret (response :: r.1, r.2)
  end.

(** What a run of the process leaves behind. *)
Record Run : Type := mkRun {
  exit_code : Z;
  cout : list string;
  unread : list string
}.

(** [main]: create the engine, initialize it, run the loop. *)
Definition main (cin : list string) : Run :=
  let '(ok, engine) := initialize "" Engine_new in
  if negb ok then {| exit_code := 1; cout := []; unread := cin |}
  else
    let '(r, _) := uci_loop cin engine in
    {| exit_code := 0; cout := r.1; unread := r.2 |}.

(* ===================================================================== *)
(** ** Vocabulary of the specification *)
(* ===================================================================== *)

(** The two states of the lifecycle. *)
Definition Ready (e : Engine) : Prop := initialized_ e = true.
Definition Uninitialized (e : Engine) : Prop := initialized_ e = false.

(** [s] has the character [c] somewhere. *)
Definition contains (c : ascii) (s : string) : Prop :=
  ∃ n, String.get n s = Some c.

(** [t] occurs in [s] as a contiguous piece. *)
Definition substring_of (t s : string) : Prop :=
  ∃ pre post, s = pre +:+ t +:+ post.

(** The calls a client can make on an engine, to speak about histories. *)
Inductive Call : Type :=
  | CallInitialize (config_path : string)
  | CallProcessCommand (command : string)
  | CallAnalyzePosition (fen : string) (depth : Z)
  | CallGetBestMove (fen : string) (time_ms : Z)
  | CallQueryOpeningBook (fen : string)
  | CallUpdateOpeningBook (fen move : string).

Definition is_initialize (c : Call) : bool :=
  match c with CallInitialize _ => true | _ => false end.

(** The state a call leaves, its result dropped. *)
Definition perform (c : Call) (e : Engine) : Engine :=
  match c with
  | CallInitialize cfg => after (initialize cfg) e
  | CallProcessCommand l => after (processCommand l) e
  | CallAnalyzePosition f d => after (analyzePosition f d) e
  | CallGetBestMove f t => after (getBestMove f t) e
  | CallQueryOpeningBook f => after (queryOpeningBook f) e
  | CallUpdateOpeningBook f m => after (updateOpeningBook f m) e
  end.

(** The state after a whole history of calls, oldest first. *)
Definition history (cs : list Call) (e : Engine) : Engine :=
  foldl (λ e c, perform c e) e cs.

(** Every character of [s] passes the test [P]. *)
Fixpoint all_chars (P : ascii → bool) (s : string) : bool :=
  match s with
  | EmptyString => true
  | String c s' => P c && all_chars P s'
  end.

(** [rest] is what may follow a token: nothing, or something that starts
    with white space. *)
Definition token_end (rest : string) : Prop :=
  match rest with
  | EmptyString => True
  | String c _ => Std.isspace c = true
  end.

(** [tok] is the first white-space delimited token of [line]: white space,
    then [tok], which is not empty and has no white space, then the end of
    the line or more white space. *)
Definition first_token (line tok : string) : Prop :=
  ∃ ws rest,
    line = ws +:+ tok +:+ rest ∧
    all_chars Std.isspace ws = true ∧
    tok ≠ "" ∧ all_chars (λ c, negb (Std.isspace c)) tok = true ∧
    token_end rest.

(** A line without any token: empty, or white space only. *)
Definition blank (line : string) : Prop := all_chars Std.isspace line = true.

(** The integer a decimal numeral denotes, [None] if [s] is not one. *)
Definition read_decimal (s : string) : option Z :=
  Z.of_int <$> NilZero.int_of_string s.

(** The engine [main] runs its loop on, and what it answers to a line. *)
Definition session_engine : Engine := after (initialize "") Engine_new.

Definition session_response (line : string) : string :=
  result (processCommand line) session_engine.

(* ===================================================================== *)
(** ** [main.cpp] on the characters of standard input *)
(* ===================================================================== *)

Module Stdin.

(** What [std::getline] takes from a stream that still holds [s]: the
    characters before the first line feed, which become the line, and what
    the stream holds afterwards; the line feed is consumed, not stored. *)
Fixpoint read_line (s : string) : string * string :=
  match s with
  | EmptyString => (EmptyString, EmptyString)
  | String c s' =>
      if Ascii.eqb c "010" then (EmptyString, s')
      else let '(line, rest) := read_line s' in (String c line, rest)
  end.

(** [std::getline(std::cin, line)] as a loop condition: the stream fails,
    [None], when it is at its end and not one character can be extracted. *)
Definition getline (s : string) : option (string * string) :=
  match s with
  | EmptyString => None
  | String _ _ => Some (read_line s)
  end.

(** The [while] loop of [main] on the unread characters [cin].  It returns
    the responses written and the characters left in the stream; [None]
    only when [fuel] iterations were not enough to reach the end. *)
Fixpoint loop (fuel : nat) (cin : string) : M (option (list string * string)) :=
  match fuel with
  | 0 => ret None
  | S fuel' =>
      match getline cin with
      | None => ret (Some ([], cin))
      | Some (line, cin') =>
          call response <- processCommand line ;;
          if String.eqb line "quit" then ret (Some ([response], cin'))
          else
            call r <- loop fuel' cin' ;;
            ret ((λ r, (response :: r.1, r.2)) <$> r)
      end
  end.

(** [main] on the whole content of standard input: exit code, responses
    written, characters left unread.  Every iteration consumes at least one
    character, so the fuel given is more than the loop can use. *)
Definition main (input : string) : option (Z * list string * string) :=
  let '(ok, engine) := initialize "" Engine_new in
  if negb ok then Some (1%Z, [], input)
  else
    (λ r, (0%Z, r.1, r.2)) <$>
      result (loop (S (String.length input)) input) engine.

End Stdin.

(** The lines of a text: the pieces between line feeds, a line feed at the
    very end opening no further line. *)
Fixpoint lines (s : string) : list string :=
  match s with
  | EmptyString => []
  | String c s' =>
      if Ascii.eqb c "010" then EmptyString :: lines s'
      else match lines s' with
           | [] => [String c EmptyString]
           | l :: ls => String c l :: ls
           end
  end.

(** The text made of the given lines, each one ended by a line feed. *)
Fixpoint unlines (ls : list string) : string :=
  match ls with
  | [] => EmptyString
  | l :: ls' => l +:+ LF +:+ unlines ls'
  end.

(** [s] has no line feed. *)
Definition no_LF (s : string) : Prop :=
  all_chars (λ c, negb (Ascii.eqb c "010")) s = true.

(** The four responses [processCommand] has for a Ready engine. *)
Definition command_responses : list string :=
  [ "id name BrainFish" +:+ LF +:+ "id author BlackBoxAI" +:+ LF +:+ "uciok" +:+ LF;
    "readyok" +:+ LF;
    "quit" +:+ LF;
    "unknown command" +:+ LF ].

(** The engines a client can produce: a new one, after any calls. *)
Definition reachable (e : Engine) : Prop :=
  ∃ cs, e = history cs Engine_new.

(* ===================================================================== *)
(** ** Facts about the string primitives *)
(* ===================================================================== *)

Section StringFacts.

Implicit Types (c x : ascii) (s : string).

Lemma contains_cons c x s :
  contains c (String x s) ↔ x = c ∨ contains c s.
Proof.
  split.
  - intros [[|n] Hn]; simpl in Hn.
    + left. congruence.
    + right. by exists n.
  - intros [-> | [n Hn]].
    + by exists 0.
    + by exists (S n).
Qed.

Lemma contains_empty c : ¬ contains c "".
Proof. by intros [[|n] Hn]. Qed.

(** [find] answers the position of the first occurrence, if any... *)
Lemma find_first c s i :
  Std.find c s = Some i →
  String.get i s = Some c ∧ ∀ j, j < i → String.get j s ≠ Some c.
Proof.
  revert i. induction s as [|x s IH]; simpl; [done |]. intros i.
  destruct (Ascii.eqb_spec x c) as [-> | Hne].
  - intros [= <-]. split; [done | lia].
  - destruct (Std.find c s) as [k|]; [| done]. intros [= <-].
    destruct (IH k eq_refl) as [Hk Hlt]. split; [done |].
    intros [|j] Hj; simpl; [congruence | apply Hlt; lia].
Qed.

(** ... and [npos] exactly on the strings without the character. *)
Lemma find_npos c s : Std.find c s = Std.npos ↔ ¬ contains c s.
Proof.
  unfold Std.npos. induction s as [|x s IH]; simpl.
  - split; [intros _; apply contains_empty | done].
  - rewrite contains_cons. destruct (Ascii.eqb_spec x c) as [-> | Hne].
    + split; [done | intros H; destruct H; by left].
    + destruct (Std.find c s) as [i|] eqn:Hf.
      * split; [done | intros H]. exfalso. apply H. right.
        exists i. by apply find_first.
      * split; [| done]. intros _ [? | Hc]; [done |]. by apply IH.
Qed.

Lemma not_npos_find c s :
  Std.not_npos (Std.find c s) = true ↔ contains c s.
Proof.
  destruct (Std.find c s) as [i|] eqn:Hf; simpl.
  - split; [intros _ | done]. exists i. by apply find_first.
  - split; [done |]. intros Hc. by apply find_npos in Hf.
Qed.

Lemma empty_true s : Std.empty s = true ↔ s = "".
Proof. by destruct s. Qed.

(** [validateFEN] is the weak gate of the specification. *)
Lemma validateFEN_true s :
  validateFEN s = true ↔ s ≠ "" ∧ contains "/" s.
Proof.
  unfold validateFEN.
  rewrite andb_true_iff, negb_true_iff, not_npos_find.
  destruct s; simpl; intuition congruence.
Qed.

Lemma validateFEN_false s :
  validateFEN s = false ↔ s = "" ∨ ¬ contains "/" s.
Proof.
  rewrite <- not_true_iff_false, validateFEN_true. split.
  - intros H. destruct s as [|x s]; [by left | right].
    intros Hc. by apply H.
  - intros [-> | Hn] [Hne Hc]; done.
Qed.

End StringFacts.

(* ===================================================================== *)
(** ** Running the member functions *)
(* ===================================================================== *)

(** Unfolds one member function down to the state it reads and writes. *)
Ltac run_member f :=
  unfold f, result, after, bind, ret,
    Pimpl.get_initialized, Pimpl.set_initialized,
    Pimpl.book_find, Pimpl.book_assign; simpl.

Section EngineFacts.

Implicit Types (e : Engine) (fen move line cfg : string) (d t : Z).

Lemma Engine_eta e :
  {| initialized_ := initialized_ e; opening_book_ := opening_book_ e |} = e.
Proof. by destruct e. Qed.

(** *** [initialize] *)

Lemma initialize_Uninitialized cfg e :
  Uninitialized e →
  initialize cfg e =
    (true, {| initialized_ := true;
              opening_book_ := <[startpos := "e2e4"]> (opening_book_ e) |}).
Proof.
  unfold Uninitialized. intros Hi.
  run_member initialize. unfold initializeOpeningBook.
  run_member Pimpl.book_assign. by rewrite Hi.
Qed.

Lemma initialize_Ready cfg e : Ready e → initialize cfg e = (true, e).
Proof. unfold Ready. intros Hi. run_member initialize. by rewrite Hi. Qed.

Lemma initialize_true cfg e : result (initialize cfg) e = true.
Proof.
  unfold result. destruct (initialized_ e) eqn:Hi.
  - by rewrite initialize_Ready.
  - by rewrite initialize_Uninitialized.
Qed.

Lemma initialize_makes_Ready cfg e : Ready (after (initialize cfg) e).
Proof.
  unfold after. destruct (initialized_ e) eqn:Hi.
  - by rewrite initialize_Ready.
  - by rewrite initialize_Uninitialized.
Qed.

(** *** The three commands never write to the state *)

Lemma processCommand_after line e : after (processCommand line) e = e.
Proof.
  run_member processCommand.
  destruct (initialized_ e); simpl; [| done].
  by repeat case_match.
Qed.

Lemma analyzePosition_after fen d e : after (analyzePosition fen d) e = e.
Proof.
  run_member analyzePosition.
  destruct (initialized_ e); simpl; [| done].
  by destruct (validateFEN fen).
Qed.

Lemma queryOpeningBook_after fen e : after (queryOpeningBook fen) e = e.
Proof. run_member queryOpeningBook. by destruct (opening_book_ e !! fen). Qed.

Lemma getBestMove_after fen t e : after (getBestMove fen t) e = e.
Proof.
  run_member getBestMove.
  destruct (initialized_ e); simpl; [| done].
  destruct (validateFEN fen); simpl; [| done].
  run_member queryOpeningBook.
  destruct (opening_book_ e !! fen) as [m|]; simpl; [| done].
  by destruct (Std.empty m).
Qed.

(** A computation is determined by its result and the state it leaves. *)
Lemma run_eq {A} (m : M A) e : m e = (result m e, after m e).
Proof. unfold result, after. by destruct (m e). Qed.

(** *** The lifecycle gate *)

Lemma processCommand_Uninitialized line e :
  Uninitialized e → processCommand line e = ("error engine not initialized", e).
Proof. unfold Uninitialized. intros Hi. run_member processCommand. by rewrite Hi. Qed.

Lemma analyzePosition_Uninitialized fen d e :
  Uninitialized e → analyzePosition fen d e = ("error engine not initialized", e).
Proof. unfold Uninitialized. intros Hi. run_member analyzePosition. by rewrite Hi. Qed.

Lemma getBestMove_Uninitialized fen t e :
  Uninitialized e → getBestMove fen t e = ("error engine not initialized", e).
Proof. unfold Uninitialized. intros Hi. run_member getBestMove. by rewrite Hi. Qed.

(** *** The opening book *)

Lemma queryOpeningBook_result fen e :
  result (queryOpeningBook fen) e = default "" (opening_book_ e !! fen).
Proof. run_member queryOpeningBook. by destruct (opening_book_ e !! fen). Qed.

Lemma updateOpeningBook_valid fen move e :
  validateFEN fen = true →
  updateOpeningBook fen move e =
    (true, {| initialized_ := initialized_ e;
              opening_book_ := <[fen := move]> (opening_book_ e) |}).
Proof. intros Hv. run_member updateOpeningBook. by rewrite Hv. Qed.

Lemma updateOpeningBook_invalid fen move e :
  validateFEN fen = false → updateOpeningBook fen move e = (false, e).
Proof. intros Hv. run_member updateOpeningBook. by rewrite Hv. Qed.

(** *** Position-bearing commands on a Ready engine *)

Lemma analyzePosition_invalid fen d e :
  Ready e → validateFEN fen = false →
  analyzePosition fen d e = ("error invalid fen", e).
Proof.
  unfold Ready. intros Hi Hv. run_member analyzePosition. by rewrite Hi, Hv.
Qed.

Lemma getBestMove_invalid fen t e :
  Ready e → validateFEN fen = false →
  getBestMove fen t e = ("error invalid fen", e).
Proof.
  unfold Ready. intros Hi Hv. run_member getBestMove. by rewrite Hi, Hv.
Qed.

Lemma getBestMove_valid fen t e :
  Ready e → validateFEN fen = true →
  result (getBestMove fen t) e =
    let book_move := default "" (opening_book_ e !! fen) in
    if Std.empty book_move then "bestmove e2e4" +:+ LF
    else ("bestmove " +:+ book_move) +:+ LF.
Proof.
  unfold Ready. intros Hi Hv. run_member getBestMove. rewrite Hi, Hv. simpl.
  run_member queryOpeningBook.
  destruct (opening_book_ e !! fen) as [m|]; simpl; [| done].
  by destruct (Std.empty m).
Qed.

Lemma getBestMove_return_valid fen t e :
  Ready e → validateFEN fen = true →
  getBestMove_return fen t e =
    if Std.empty (default "" (opening_book_ e !! fen)) then ReturnSearch
    else ReturnBookMove.
Proof.
  unfold Ready, getBestMove_return. intros Hi Hv.
  rewrite Hi, Hv, queryOpeningBook_result. simpl.
  by destruct (Std.empty _).
Qed.

(** The labels of [getBestMove_return] are those of the [return]
    statements of [getBestMove]: the response is determined by the label
    (and, for a book move, by the entry). *)
Lemma getBestMove_by_return fen t e :
  result (getBestMove fen t) e =
    match getBestMove_return fen t e with
    | ReturnNotInitialized => "error engine not initialized"
    | ReturnInvalidFen => "error invalid fen"
    | ReturnBookMove =>
        ("bestmove " +:+ result (queryOpeningBook fen) e) +:+ LF
    | ReturnSearch => "bestmove e2e4" +:+ LF
    end.
Proof.
  unfold getBestMove_return.
  destruct (initialized_ e) eqn:Hi; simpl.
  - destruct (validateFEN fen) eqn:Hv; simpl.
    + rewrite getBestMove_valid, queryOpeningBook_result by done. simpl.
      by destruct (Std.empty _).
    + unfold result. by rewrite getBestMove_invalid.
  - unfold result. by rewrite getBestMove_Uninitialized.
Qed.

End EngineFacts.

(* ===================================================================== *)
(** ** [iss >> cmd] extracts the first token *)
(* ===================================================================== *)

Section Tokens.

Implicit Types (c : ascii) (s ws tok rest line : string).

Lemma skipws_app ws s :
  all_chars Std.isspace ws = true → Std.skipws (ws +:+ s) = Std.skipws s.
Proof.
  induction ws as [|c ws IH]; simpl; [done |].
  intros [Hc Hws]%andb_true_iff. rewrite Hc. auto.
Qed.

Lemma skipws_token tok rest :
  tok ≠ "" → all_chars (λ c, negb (Std.isspace c)) tok = true →
  Std.skipws (tok +:+ rest) = tok +:+ rest.
Proof.
  destruct tok as [|c tok]; [done |]. simpl.
  intros _ [Hc _]%andb_true_iff. apply negb_true_iff in Hc. by rewrite Hc.
Qed.

Lemma take_word_app tok rest :
  all_chars (λ c, negb (Std.isspace c)) tok = true → token_end rest →
  Std.take_word (tok +:+ rest) = tok.
Proof.
  induction tok as [|c tok IH]; simpl.
  - intros _. destruct rest as [|c rest]; simpl; [done |]. by intros ->.
  - intros [Hc Htok]%andb_true_iff Hrest. apply negb_true_iff in Hc.
    rewrite Hc. f_equal. auto.
Qed.

(** The token of a line, when it has one, is what [iss >> cmd] stores. *)
Lemma extract_first_token line tok :
  first_token line tok → Std.extract line = tok.
Proof.
  intros (ws & rest & -> & Hws & Hne & Htok & Hrest). unfold Std.extract.
  rewrite skipws_app, skipws_token by done. by apply take_word_app.
Qed.

(** On a blank line the extraction fails and [cmd] stays empty. *)
Lemma extract_blank line : blank line → Std.extract line = "".
Proof.
  unfold blank, Std.extract. induction line as [|c line IH]; simpl; [done |].
  intros [Hc Hl]%andb_true_iff. rewrite Hc. auto.
Qed.

Lemma skipws_split s :
  ∃ ws, s = ws +:+ Std.skipws s ∧ all_chars Std.isspace ws = true.
Proof.
  induction s as [|c s (ws & Hs & Hws)]; simpl.
  - by exists "".
  - destruct (Std.isspace c) eqn:Hc.
    + exists (String c ws). simpl. rewrite Hc, Hws.
      split; [exact (f_equal (String c) Hs) | done].
    + by exists "".
Qed.

Lemma take_word_split s :
  ∃ rest, s = Std.take_word s +:+ rest ∧
    all_chars (λ c, negb (Std.isspace c)) (Std.take_word s) = true ∧
    token_end rest.
Proof.
  induction s as [|c s (rest & Hs & Hw & Hrest)]; simpl.
  - by exists "".
  - destruct (Std.isspace c) eqn:Hc; simpl.
    + by exists (String c s).
    + exists rest. rewrite Hc, Hw.
      split; [exact (f_equal (String c) Hs) | done].
Qed.

Lemma skipws_blank s : Std.skipws s = "" → blank s.
Proof.
  unfold blank. induction s as [|c s IH]; simpl; [done |].
  destruct (Std.isspace c); [auto | done].
Qed.

Lemma take_word_skipws_empty s :
  Std.take_word (Std.skipws s) = "" → Std.skipws s = "".
Proof.
  induction s as [|c s IH]; simpl; [done |].
  destruct (Std.isspace c) eqn:Hc; [auto |]. simpl. by rewrite Hc.
Qed.

(** Every line is blank or has a first token, and [iss >> cmd] tells
    which: it stores the token, or nothing on a blank line. *)
Lemma extract_spec line :
  (blank line ∧ Std.extract line = "") ∨
  (first_token line (Std.extract line)).
Proof.
  unfold Std.extract.
  destruct (Std.take_word (Std.skipws line)) eqn:Hw.
  - left. split; [| done]. by apply skipws_blank, take_word_skipws_empty.
  - right. rewrite <- Hw.
    destruct (skipws_split line) as (ws & Hl & Hws).
    destruct (take_word_split (Std.skipws line)) as (rest & Hs & Htok & Hrest).
    exists ws, rest. rewrite <- Hs. repeat split; try done.
    by rewrite Hw.
Qed.

(** The lines the specification calls unknown are exactly those on which
    [iss >> cmd] stores something other than the three command words. *)
Lemma unknown_line_iff line :
  blank line ∨
    (∃ tok, first_token line tok ∧
            tok ≠ "uci" ∧ tok ≠ "isready" ∧ tok ≠ "quit") ↔
  Std.extract line ≠ "uci" ∧ Std.extract line ≠ "isready" ∧
    Std.extract line ≠ "quit".
Proof.
  split.
  - intros [Hb | (tok & Htok & Hne)].
    + by rewrite (extract_blank _ Hb).
    + by rewrite (extract_first_token _ _ Htok).
  - intros Hne. destruct (extract_spec line) as [[Hb _] | Htok].
    + by left.
    + right. by exists (Std.extract line).
Qed.

End Tokens.

(* ===================================================================== *)
(** ** [std::to_string] writes the decimal numeral of its argument *)
(* ===================================================================== *)

Section Decimal.

Lemma read_to_string (n : Z) : read_decimal (Std.to_string n) = Some n.
Proof.
  unfold read_decimal, Std.to_string.
  rewrite NilZero.isi.
  - simpl. by rewrite DecimalZ.of_to.
  - destruct n; simpl; try done.
    intros [= H]. by apply DecimalPos.Unsigned.to_uint_nonnil in H.
  - destruct n; simpl; try done.
    intros [= H]. by apply DecimalPos.Unsigned.to_uint_nonnil in H.
Qed.

Lemma to_string_inj (n n' : Z) : Std.to_string n = Std.to_string n' → n = n'.
Proof.
  intros H. apply (f_equal read_decimal) in H.
  rewrite !read_to_string in H. congruence.
Qed.

Example to_string_20 : Std.to_string 20 = "20".
Proof. reflexivity. Qed.

Example to_string_0 : Std.to_string 0 = "0".
Proof. reflexivity. Qed.

Example to_string_INT_MIN : Std.to_string (- 2 ^ 31) = "-2147483648".
Proof. reflexivity. Qed.

Example to_string_INT_MAX : Std.to_string (2 ^ 31 - 1) = "2147483647".
Proof. reflexivity. Qed.

End Decimal.

(* ===================================================================== *)
(** ** Histories: what "before" and "after" [initialize] mean *)
(* ===================================================================== *)

Section Histories.

Implicit Types (e : Engine) (c : Call) (cs : list Call).

Lemma updateOpeningBook_initialized fen move e :
  initialized_ (after (updateOpeningBook fen move) e) = initialized_ e.
Proof.
  unfold after. destruct (validateFEN fen) eqn:Hv.
  - by rewrite updateOpeningBook_valid.
  - by rewrite updateOpeningBook_invalid.
Qed.

Lemma perform_initialized c e :
  initialized_ (perform c e) = is_initialize c || initialized_ e.
Proof.
  destruct c; simpl.
  - apply initialize_makes_Ready.
  - by rewrite processCommand_after.
  - by rewrite analyzePosition_after.
  - by rewrite getBestMove_after.
  - by rewrite queryOpeningBook_after.
  - apply updateOpeningBook_initialized.
Qed.

Lemma history_initialized cs e :
  initialized_ (history cs e) = existsb is_initialize cs || initialized_ e.
Proof.
  unfold history. revert e. induction cs as [|c cs IH]; intros e; simpl.
  - done.
  - rewrite IH, perform_initialized.
    by destruct (is_initialize c), (existsb is_initialize cs).
Qed.

(** A new engine is Ready exactly when [initialize] has been called on it:
    the flag is set by [initialize] and by nothing else, and nothing ever
    clears it. *)
Lemma Ready_history cs :
  Ready (history cs Engine_new) ↔ ∃ cfg, CallInitialize cfg ∈ cs.
Proof.
  unfold Ready. rewrite history_initialized, orb_false_r, existsb_exists.
  split.
  - intros ([cfg | | | | |] & Hin & Hc); try done.
    exists cfg. by apply list_elem_of_In.
  - intros (cfg & Hin). exists (CallInitialize cfg).
    split; [by apply list_elem_of_In | done].
Qed.

Lemma Ready_preserved cs e : Ready e → Ready (history cs e).
Proof.
  unfold Ready. intros Hr. rewrite history_initialized, Hr. apply orb_true_r.
Qed.

End Histories.

(* ===================================================================== *)
(** ** The session loop *)
(* ===================================================================== *)

Section Session.

Implicit Types (e : Engine) (line : string) (lines pre post : list string).

Lemma uci_loop_cons line lines e :
  uci_loop (line :: lines) e =
    if String.eqb line "quit"
    then (([result (processCommand line) e], lines), e)
    else ((result (processCommand line) e :: (uci_loop lines e).1.1,
           (uci_loop lines e).1.2), (uci_loop lines e).2).
Proof.
  simpl. unfold bind at 1.
  rewrite (run_eq (processCommand line) e), processCommand_after.
  destruct (String.eqb line "quit"); [done |].
  unfold bind, ret. by destruct (uci_loop lines e) as [[out rest] e'].
Qed.

(** Without a line [quit] the loop answers every line and reads them all. *)
Lemma uci_loop_no_quit lines e :
  "quit" ∉ lines →
  uci_loop lines e = (((λ l, result (processCommand l) e) <$> lines, []), e).
Proof.
  induction lines as [|line lines IH]; [done |].
  intros [Hne Hnin]%not_elem_of_cons. rewrite uci_loop_cons.
  destruct (String.eqb_spec line "quit") as [-> | _]; [done |].
  by rewrite IH.
Qed.

(** It stops right after the first line [quit], whose answer is written. *)
Lemma uci_loop_quit pre post e :
  "quit" ∉ pre →
  uci_loop (pre ++ "quit" :: post) e =
    ((((λ l, result (processCommand l) e) <$> pre)
        ++ [result (processCommand "quit") e], post), e).
Proof.
  induction pre as [|line pre IH]; simpl app.
  - intros _. by rewrite uci_loop_cons.
  - intros [Hne Hnin]%not_elem_of_cons. rewrite uci_loop_cons.
    destruct (String.eqb_spec line "quit") as [-> | _]; [done |].
    by rewrite IH.
Qed.

Lemma main_eq lines :
  main lines =
    {| exit_code := 0;
       cout := (uci_loop lines session_engine).1.1;
       unread := (uci_loop lines session_engine).1.2 |}.
Proof.
  unfold main, session_engine, after.
  rewrite (initialize_Uninitialized "" Engine_new) by done. simpl.
  by destruct (uci_loop lines _) as [[out rest] e'].
Qed.

End Session.

(* ===================================================================== *)
(** ** The properties of the specification *)
(* ===================================================================== *)

Section Claims.

Implicit Types (e : Engine) (p fen m move line cfg : string) (d t : Z).

(** C1. Lifecycle gate.  On an engine that is still Uninitialized (by
    [Ready_history]: no [initialize] has run on it yet), each of
    [processCommand], [analyzePosition] and [getBestMove] returns, for
    every input, the literal ["error engine not initialized"], and the
    state it leaves, flag and opening book, is the state it found. *)
Theorem C1_lifecycle_gate e :
  Uninitialized e →
  (∀ line, processCommand line e = ("error engine not initialized", e)) ∧
  (∀ fen d, analyzePosition fen d e = ("error engine not initialized", e)) ∧
  (∀ fen t, getBestMove fen t e = ("error engine not initialized", e)).
Proof.
  intros Hu. split; [| split]; intros.
  - by apply processCommand_Uninitialized.
  - by apply analyzePosition_Uninitialized.
  - by apply getBestMove_Uninitialized.
Qed.

Lemma C1_lifecycle_gate_witness :
  Uninitialized Engine_new ∧
  processCommand "uci" Engine_new =
    ("error engine not initialized", Engine_new) ∧
  analyzePosition startpos 20 Engine_new =
    ("error engine not initialized", Engine_new) ∧
  getBestMove startpos 1000 Engine_new =
    ("error engine not initialized", Engine_new).
Proof.
  assert (Hu : Uninitialized Engine_new) by reflexivity.
  destruct (C1_lifecycle_gate Engine_new Hu) as (Hp & Ha & Hg).
  split; [exact Hu |]. split; [apply Hp |]. split; [apply Ha | apply Hg].
Defined.

(** C2, as amended.  On a Ready engine, for a position [p] that passes
    validation and whose book entry [m] is not the empty string,
    [getBestMove p t] returns exactly ["bestmove " ++ m ++ "\n"] for every
    [t], leaves the state as it was, and leaves through the book-move
    [return]: the statement that stands for the search is not reached. *)
Theorem C2_book_precedence e p m t :
  Ready e →
  validateFEN p = true →
  opening_book_ e !! p = Some m →
  m ≠ "" →
  getBestMove p t e = ("bestmove " +:+ m +:+ LF, e) ∧
  getBestMove_return p t e = ReturnBookMove.
Proof.
  intros Hr Hv Hm Hne.
  assert (He : Std.empty m = false).
  { apply not_true_iff_false. by rewrite empty_true. }
  split.
  - rewrite run_eq, getBestMove_after, getBestMove_valid, Hm by done.
    simpl. by rewrite He.
  - rewrite getBestMove_return_valid, Hm by done. simpl. by rewrite He.
Qed.

Lemma C2_book_precedence_witness :
  getBestMove startpos 1000 session_engine =
    ("bestmove " +:+ "e2e4" +:+ LF, session_engine) ∧
  getBestMove_return startpos 1000 session_engine = ReturnBookMove.
Proof.
  apply (C2_book_precedence session_engine startpos "e2e4" 1000).
  - reflexivity.
  - reflexivity.
  - vm_compute. reflexivity.
  - discriminate.
Defined.

(** C2 as it was stated fails when the entry is the empty string, which
    [updateOpeningBook] accepts: [queryOpeningBook] then returns the same
    value as on a miss and [getBestMove] goes on to the search
    placeholder, so the response is ["bestmove e2e4\n"], not
    ["bestmove \n"]. *)
Lemma C2_counterexample_empty_move :
  ¬ (∀ e p m t,
       Ready e → validateFEN p = true → opening_book_ e !! p = Some m →
       result (getBestMove p t) e = "bestmove " +:+ m +:+ LF ∧
       getBestMove_return p t e = ReturnBookMove).
Proof.
  intros H.
  destruct (H (after (updateOpeningBook "8/8" "") session_engine)
              "8/8" "" 1000%Z) as [Hresp _].
  - reflexivity.
  - reflexivity.
  - vm_compute. reflexivity.
  - vm_compute in Hresp. discriminate Hresp.
Qed.

(** C3. Validation gate.  For a position that is empty or has no ['/']:
    on a Ready engine [analyzePosition] and [getBestMove] return exactly
    ["error invalid fen"] whatever the depth or time budget,
    [updateOpeningBook] returns [false] whatever the move, and each of the
    three leaves the state, so the opening book, as it found it. *)
Theorem C3_validation_gate e p :
  Ready e →
  p = "" ∨ ¬ contains "/" p →
  (∀ d, analyzePosition p d e = ("error invalid fen", e)) ∧
  (∀ t, getBestMove p t e = ("error invalid fen", e)) ∧
  (∀ m, updateOpeningBook p m e = (false, e)).
Proof.
  intros Hr Hp%validateFEN_false. split; [| split]; intros.
  - by apply analyzePosition_invalid.
  - by apply getBestMove_invalid.
  - by apply updateOpeningBook_invalid.
Qed.

Lemma C3_validation_gate_witness :
  analyzePosition "nofences" 20 session_engine =
    ("error invalid fen", session_engine) ∧
  getBestMove "" 1000 session_engine =
    ("error invalid fen", session_engine) ∧
  updateOpeningBook "nofences" "e2e4" session_engine =
    (false, session_engine).
Proof.
  assert (Hr : Ready session_engine) by reflexivity.
  assert (H1 : "nofences" = "" ∨ ¬ contains "/" "nofences").
  { right. apply find_npos. reflexivity. }
  assert (H2 : "" = "" ∨ ¬ contains "/" "") by (left; reflexivity).
  destruct (C3_validation_gate session_engine "nofences" Hr H1) as (Ha & _ & Hu).
  destruct (C3_validation_gate session_engine "" Hr H2) as (_ & Hg & _).
  split; [apply Ha |]. split; [apply Hg | apply Hu].
Defined.

(** C4. [initialize] is idempotent.  From any state the first call returns
    [true]; a second call right after it returns [true] as well and
    leaves the state the first call produced untouched, so the book is
    neither reseeded nor changed in any other way. *)
Theorem C4_initialize_idempotent cfg cfg' e :
  result (initialize cfg) e = true ∧
  initialize cfg' (after (initialize cfg) e) =
    (true, after (initialize cfg) e) ∧
  opening_book_ (after (initialize cfg') (after (initialize cfg) e)) =
    opening_book_ (after (initialize cfg) e).
Proof.
  assert (H2 : initialize cfg' (after (initialize cfg) e) =
                 (true, after (initialize cfg) e)).
  { apply initialize_Ready, initialize_makes_Ready. }
  split; [apply initialize_true |]. split; [exact H2 |].
  unfold after at 1. by rewrite H2.
Qed.

(** C5. Upsert is last-write-wins.  For a position [p] that is not empty
    and has a ['/'], [updateOpeningBook p m1] followed by
    [updateOpeningBook p m2] succeeds twice, after which
    [queryOpeningBook p] returns [m2], the entry of every other key is
    what it was before the two calls, and so is the lifecycle flag. *)
Theorem C5_upsert_last_write_wins e p m1 m2 :
  p ≠ "" →
  contains "/" p →
  let e1 := after (updateOpeningBook p m1) e in
  let e2 := after (updateOpeningBook p m2) e1 in
  result (updateOpeningBook p m1) e = true ∧
  result (updateOpeningBook p m2) e1 = true ∧
  result (queryOpeningBook p) e2 = m2 ∧
  (∀ k, k ≠ p → opening_book_ e2 !! k = opening_book_ e !! k) ∧
  (∀ k, k ≠ p →
     result (queryOpeningBook k) e2 = result (queryOpeningBook k) e) ∧
  initialized_ e2 = initialized_ e.
Proof.
  intros Hne Hc e1 e2.
  assert (Hv : validateFEN p = true) by by apply validateFEN_true.
  subst e2 e1. unfold after, result.
  rewrite !updateOpeningBook_valid by done. simpl.
  rewrite !(run_eq (queryOpeningBook _)).
  setoid_rewrite queryOpeningBook_result. simpl.
  rewrite lookup_insert_eq.
  repeat split; try done.
  - intros k Hk. by rewrite !lookup_insert_ne.
  - intros k Hk. by rewrite !lookup_insert_ne.
Qed.

Lemma C5_upsert_last_write_wins_witness :
  result (queryOpeningBook "8/8")
    (after (updateOpeningBook "8/8" "d2d4")
       (after (updateOpeningBook "8/8" "e2e4") Engine_new)) = "d2d4".
Proof.
  assert (Hne : "8/8" ≠ "") by discriminate.
  assert (Hc : contains "/" "8/8") by (exists 1; reflexivity).
  exact (proj1 (proj2 (proj2
    (C5_upsert_last_write_wins Engine_new "8/8" "e2e4" "d2d4" Hne Hc)))).
Defined.

(** C6, as amended.  While the engine is Uninitialized the three commands
    [processCommand], [analyzePosition] and [getBestMove] are disabled.
    [updateOpeningBook] is not gated on the lifecycle: called before any
    [initialize] it is refused, with the book left as it was, exactly when
    the position fails validation; for a position that passes it returns
    [true] and stores the entry, and the engine stays Uninitialized. *)
Theorem C6_update_not_lifecycle_gated e p m :
  Uninitialized e →
  (∀ line, result (processCommand line) e = "error engine not initialized") ∧
  (∀ d, result (analyzePosition p d) e = "error engine not initialized") ∧
  (∀ t, result (getBestMove p t) e = "error engine not initialized") ∧
  result (updateOpeningBook p m) e = validateFEN p ∧
  (validateFEN p = false → after (updateOpeningBook p m) e = e) ∧
  (validateFEN p = true →
     opening_book_ (after (updateOpeningBook p m) e) =
       <[p := m]> (opening_book_ e)) ∧
  Uninitialized (after (updateOpeningBook p m) e).
Proof.
  intros Hu. unfold result, after.
  split; [intros; by rewrite processCommand_Uninitialized |].
  split; [intros; by rewrite analyzePosition_Uninitialized |].
  split; [intros; by rewrite getBestMove_Uninitialized |].
  destruct (validateFEN p) eqn:Hv.
  - rewrite updateOpeningBook_valid by done. simpl. by repeat split.
  - rewrite updateOpeningBook_invalid by done. simpl. by repeat split.
Qed.

Lemma C6_update_not_lifecycle_gated_witness :
  result (updateOpeningBook "8/8" "e2e4") Engine_new = validateFEN "8/8" ∧
  Uninitialized (after (updateOpeningBook "8/8" "e2e4") Engine_new).
Proof.
  assert (Hu : Uninitialized Engine_new) by reflexivity.
  destruct (C6_update_not_lifecycle_gated Engine_new "8/8" "e2e4" Hu)
    as (_ & _ & _ & Hres & _ & _ & Hu').
  split; [exact Hres | exact Hu'].
Defined.

(** C6 as it was stated fails: on a newly constructed engine
    [updateOpeningBook "8/8" "e2e4"] returns [true] and the book has the
    entry afterwards. *)
Lemma C6_counterexample_update_before_initialize :
  ¬ (∀ e p m,
       Uninitialized e →
       result (updateOpeningBook p m) e = false ∧
       opening_book_ (after (updateOpeningBook p m) e) = opening_book_ e).
Proof.
  intros H.
  destruct (H Engine_new "8/8" "e2e4") as [Hres _]; [reflexivity |].
  vm_compute in Hres. discriminate Hres.
Qed.

(** C7. Unknown commands.  On a Ready engine, a line that is blank (empty
    or white space only) or whose first white-space delimited token is
    none of ["uci"], ["isready"], ["quit"] gets exactly the response
    ["unknown command\n"], and the state, flag and opening book, is left
    as it was. *)
Theorem C7_unknown_command e line :
  Ready e →
  blank line ∨
    (∃ tok, first_token line tok ∧
            tok ≠ "uci" ∧ tok ≠ "isready" ∧ tok ≠ "quit") →
  processCommand line e = ("unknown command" +:+ LF, e).
Proof.
  unfold Ready. intros Hr (H1 & H2 & H3)%unknown_line_iff.
  run_member processCommand. rewrite Hr. simpl.
  apply String.eqb_neq in H1, H2, H3. by rewrite H1, H2, H3.
Qed.

Lemma C7_unknown_command_witness :
  processCommand "" session_engine =
    ("unknown command" +:+ LF, session_engine) ∧
  processCommand "  whatever next" session_engine =
    ("unknown command" +:+ LF, session_engine).
Proof.
  assert (Hr : Ready session_engine) by reflexivity.
  split.
  - apply (C7_unknown_command session_engine "" Hr). left. reflexivity.
  - apply (C7_unknown_command session_engine "  whatever next" Hr). right.
    exists "whatever". split.
    + exists "  ", " next". repeat split; (reflexivity || discriminate).
    + repeat split; discriminate.
Defined.

(** C8. The session.  Over any finite sequence of lines, the lines are
    answered in order, one response each.  If no line before the first
    line that is exactly ["quit"] is, the run answers those lines and the
    [quit] line (with ["quit\n"]), ends with exit code 0, and leaves what
    follows unread; without any such line it answers every line and ends
    at the end of the input.  The line ["quit now"] is answered
    ["quit\n"] too, but the session goes on with the next line. *)
Theorem C8_session_ends_at_first_quit pre post :
  "quit" ∉ pre →
  main (pre ++ "quit" :: post) =
    {| exit_code := 0;
       cout := (session_response <$> pre) ++ ["quit" +:+ LF];
       unread := post |} ∧
  main pre =
    {| exit_code := 0; cout := session_response <$> pre; unread := [] |} ∧
  session_response "quit now" = "quit" +:+ LF ∧
  main ("quit now" :: pre ++ "quit" :: post) =
    {| exit_code := 0;
       cout := ("quit" +:+ LF) :: (session_response <$> pre) ++ ["quit" +:+ LF];
       unread := post |} ∧
  main ("quit now" :: pre) =
    {| exit_code := 0;
       cout := ("quit" +:+ LF) :: (session_response <$> pre);
       unread := [] |}.
Proof.
  intros Hpre.
  assert (Hpre' : "quit" ∉ "quit now" :: pre).
  { apply not_elem_of_cons. by split. }
  split; [| split; [| split; [| split]]].
  - by rewrite main_eq, uci_loop_quit.
  - by rewrite main_eq, uci_loop_no_quit.
  - reflexivity.
  - rewrite main_eq, app_comm_cons, uci_loop_quit by done. reflexivity.
  - rewrite main_eq, uci_loop_no_quit by done. reflexivity.
Qed.

Lemma C8_session_ends_at_first_quit_witness :
  main ["uci"; "quit now"; "go"; "quit"; "isready"; "quit"] =
    {| exit_code := 0;
       cout := (session_response <$> ["uci"; "quit now"; "go"])
                 ++ ["quit" +:+ LF];
       unread := ["isready"; "quit"] |}.
Proof.
  refine (proj1 (C8_session_ends_at_first_quit
                   ["uci"; "quit now"; "go"] ["isready"; "quit"] _)).
  rewrite !not_elem_of_cons. repeat split; (discriminate || apply not_elem_of_nil).
Defined.

(** C9. The seeded scenario.  [initialize] on an engine that is not yet
    initialized (a new one in particular) succeeds, and right after it
    [getBestMove] on the initial position with a budget of 1000 returns
    exactly ["bestmove e2e4\n"], through the book-move [return], the
    book holding [e2e4] for that position; and [processCommand "uci"]
    returns a response that contains ["uciok\n"]. *)
Theorem C9_seeded_scenario cfg e0 :
  Uninitialized e0 →
  let e := after (initialize cfg) e0 in
  result (initialize cfg) e0 = true ∧
  opening_book_ e !! startpos = Some "e2e4" ∧
  getBestMove
    "rnbqkbnr/pppppppp/8/8/8/8/PPPPPPPP/RNBQKBNR w KQkq - 0 1" 1000 e =
    ("bestmove e2e4" +:+ LF, e) ∧
  getBestMove_return
    "rnbqkbnr/pppppppp/8/8/8/8/PPPPPPPP/RNBQKBNR w KQkq - 0 1" 1000 e =
    ReturnBookMove ∧
  substring_of ("uciok" +:+ LF) (result (processCommand "uci") e).
Proof.
  intros Hu e.
  assert (Hr : Ready e) by apply initialize_makes_Ready.
  assert (Hb : opening_book_ e !! startpos = Some "e2e4").
  { subst e. unfold after. rewrite initialize_Uninitialized by done.
    apply lookup_insert_eq. }
  assert (Hv : validateFEN startpos = true) by reflexivity.
  split; [apply initialize_true |]. split; [exact Hb |].
  fold startpos. split; [| split].
  - rewrite run_eq, getBestMove_after, getBestMove_valid, Hb by done.
    reflexivity.
  - rewrite getBestMove_return_valid, Hb by done. reflexivity.
  - exists ("id name BrainFish" +:+ LF +:+ "id author BlackBoxAI" +:+ LF), "".
    run_member processCommand. by rewrite Hr.
Qed.

Lemma C9_seeded_scenario_witness :
  getBestMove startpos 1000 (after (initialize "") Engine_new) =
    ("bestmove e2e4" +:+ LF, after (initialize "") Engine_new).
Proof.
  assert (Hu : Uninitialized Engine_new) by reflexivity.
  exact (proj1 (proj2 (proj2 (C9_seeded_scenario "" Engine_new Hu)))).
Defined.

(** C10. The analysis line.  On a Ready engine, for every position that
    passes validation and every depth [d], [analyzePosition] returns
    exactly ["info depth " ++ to_string d ++ " score cp 100 pv e2e4
    e7e5\n"] and leaves the state as it was.  The score and the
    principal variation are constants: any other valid position, on any
    other Ready engine, gets the same response for the same depth. *)
Theorem C10_analysis_line e p d :
  Ready e →
  validateFEN p = true →
  analyzePosition p d e =
    ("info depth " +:+ Std.to_string d +:+ " score cp 100 pv e2e4 e7e5" +:+ LF,
     e) ∧
  (∀ e' p', Ready e' → validateFEN p' = true →
     result (analyzePosition p' d) e' = result (analyzePosition p d) e).
Proof.
  assert (H : ∀ e p, Ready e → validateFEN p = true →
    analyzePosition p d e =
      ("info depth " +:+ Std.to_string d
         +:+ " score cp 100 pv e2e4 e7e5" +:+ LF, e)).
  { clear e p. intros e p Hr Hv. unfold Ready in Hr.
    run_member analyzePosition. by rewrite Hr, Hv. }
  intros Hr Hv. split; [by apply H |].
  intros e' p' Hr' Hv'. unfold result. by rewrite !H.
Qed.

Lemma C10_analysis_line_witness :
  analyzePosition "8/8/8/8/8/8/8/8 w - - 0 1" 20 session_engine =
    ("info depth 20 score cp 100 pv e2e4 e7e5" +:+ LF, session_engine).
Proof.
  refine (proj1 (C10_analysis_line session_engine
                   "8/8/8/8/8/8/8/8 w - - 0 1" 20 _ _)); reflexivity.
Defined.

End Claims.

(* ===================================================================== *)
(** ** Further properties of the code *)
(* ===================================================================== *)

Section Dispatch.

Implicit Types (e : Engine) (line tok : string).

(** X1. Dispatch is on the first token alone.  On a Ready engine a line
    whose first white-space delimited token is [uci], [isready] or [quit]
    gets the banner, ["readyok\n"] or ["quit\n"], whatever white space
    comes before the token and whatever follows it, and the state is left
    as it was. *)
Theorem X1_dispatch_on_first_token e line :
  Ready e →
  (first_token line "uci" →
     processCommand line e =
       ("id name BrainFish" +:+ LF +:+ "id author BlackBoxAI" +:+ LF
          +:+ "uciok" +:+ LF, e)) ∧
  (first_token line "isready" →
     processCommand line e = ("readyok" +:+ LF, e)) ∧
  (first_token line "quit" →
     processCommand line e = ("quit" +:+ LF, e)).
Proof.
  unfold Ready. intros Hr.
  repeat split; intros Htok%extract_first_token;
    run_member processCommand; by rewrite Hr, Htok.
Qed.

Lemma X1_dispatch_on_first_token_witness :
  processCommand "   isready  now please" session_engine =
    ("readyok" +:+ LF, session_engine).
Proof.
  assert (Hr : Ready session_engine) by reflexivity.
  apply (X1_dispatch_on_first_token session_engine _ Hr).
  exists "   ", "  now please". repeat split; (reflexivity || discriminate).
Defined.

(** X2. The four query operations are read-only.  In every state and for
    every input, [processCommand], [analyzePosition], [getBestMove] and
    [queryOpeningBook] leave the flag and the opening book exactly as they
    found them; only [initialize] and [updateOpeningBook] ever write. *)
Theorem X2_queries_are_read_only e line fen (d t : Z) :
  after (processCommand line) e = e ∧
  after (analyzePosition fen d) e = e ∧
  after (getBestMove fen t) e = e ∧
  after (queryOpeningBook fen) e = e.
Proof.
  split; [apply processCommand_after |].
  split; [apply analyzePosition_after |].
  split; [apply getBestMove_after | apply queryOpeningBook_after].
Qed.

End Dispatch.

Section Book.

Implicit Types (e : Engine) (p q fen m move cfg : string) (t d : Z).

Lemma contains_split (c : ascii) (s : string) :
  contains c s ↔ ∃ a b, s = a +:+ String c b.
Proof.
  induction s as [|x s IH].
  - split; [by intros ?%contains_empty |].
    intros ([|y a] & b & H); discriminate H.
  - rewrite contains_cons, IH. split.
    + intros [-> | (a & b & ->)].
      * by exists "", s.
      * by exists (String x a), b.
    + intros ([|y a] & b & H); injection H as -> ->; eauto.
Qed.

(** X3. The validation gate is the slash test alone.  [validateFEN] accepts
    a string exactly when a ['/'] occurs in it, whatever stands before and
    after; the emptiness test of the source never decides, since a string
    with a ['/'] is not empty. *)
Theorem X3_validateFEN_is_slash_test fen :
  (validateFEN fen = true ↔ ∃ a b, fen = a +:+ "/" +:+ b) ∧
  validateFEN fen = Std.not_npos (Std.find "/" fen).
Proof.
  split.
  - rewrite validateFEN_true, <- (contains_split "/" fen).
    split; [by intros [_ ?] |]. intros Hc. split; [| done].
    intros ->. by apply contains_empty in Hc.
  - unfold validateFEN. by destruct fen.
Qed.

(** X4. Book miss.  On a Ready engine, for a position that passes
    validation and has no entry in the book, or has the empty string as
    its entry, [getBestMove] returns the placeholder ["bestmove e2e4\n"]
    through the [return] that stands for the search, for every time
    budget, and the state is left as it was. *)
Theorem X4_book_miss_gives_placeholder e p t :
  Ready e →
  validateFEN p = true →
  opening_book_ e !! p = None ∨ opening_book_ e !! p = Some "" →
  getBestMove p t e = ("bestmove e2e4" +:+ LF, e) ∧
  getBestMove_return p t e = ReturnSearch.
Proof.
  intros Hr Hv Hm.
  rewrite run_eq, getBestMove_after, getBestMove_valid,
    getBestMove_return_valid by done.
  by destruct Hm as [-> | ->].
Qed.

Lemma X4_book_miss_gives_placeholder_witness :
  getBestMove "8/8/8/8/8/8/8/8 w - - 0 1" 1000 session_engine =
    ("bestmove e2e4" +:+ LF, session_engine) ∧
  getBestMove_return "8/8/8/8/8/8/8/8 w - - 0 1" 1000 session_engine =
    ReturnSearch.
Proof.
  apply (X4_book_miss_gives_placeholder session_engine
           "8/8/8/8/8/8/8/8 w - - 0 1" 1000).
  - reflexivity.
  - reflexivity.
  - left. vm_compute. reflexivity.
Defined.

(** X5. A book update is what [getBestMove] answers next.  On a Ready
    engine, after [updateOpeningBook p m] with a position that passes
    validation, [getBestMove p] returns ["bestmove " ++ m ++ "\n"] when [m]
    is not empty, whatever the book held for [p] before; storing the empty
    move instead hides the entry, and the placeholder is returned. *)
Theorem X5_update_then_getBestMove e p m t :
  Ready e →
  validateFEN p = true →
  result (updateOpeningBook p m) e = true ∧
  result (getBestMove p t) (after (updateOpeningBook p m) e) =
    if Std.empty m then "bestmove e2e4" +:+ LF
    else "bestmove " +:+ m +:+ LF.
Proof.
  intros Hr Hv. unfold result at 1, after.
  rewrite updateOpeningBook_valid by done. simpl. split; [done |].
  rewrite getBestMove_valid by done. simpl. rewrite lookup_insert_eq. simpl.
  by destruct (Std.empty m).
Qed.

Lemma X5_update_then_getBestMove_witness :
  result (getBestMove startpos 1000)
    (after (updateOpeningBook startpos "d2d4") session_engine) =
    "bestmove d2d4" +:+ LF.
Proof.
  refine (proj2 (X5_update_then_getBestMove session_engine startpos "d2d4"
                   1000 _ _)); reflexivity.
Defined.

(** X6. Updates of different positions commute.  Two [updateOpeningBook]
    calls on different positions leave the same state in either order; a
    call on a position that fails validation changes nothing, so it
    commutes with everything. *)
Theorem X6_updates_commute e p q m m' :
  p ≠ q →
  after (updateOpeningBook q m') (after (updateOpeningBook p m) e) =
  after (updateOpeningBook p m) (after (updateOpeningBook q m') e).
Proof.
  intros Hne. unfold after.
  destruct (validateFEN p) eqn:Hp, (validateFEN q) eqn:Hq;
    repeat first
      [ rewrite (updateOpeningBook_valid p) by done
      | rewrite (updateOpeningBook_invalid p) by done
      | rewrite (updateOpeningBook_valid q) by done
      | rewrite (updateOpeningBook_invalid q) by done ];
    simpl; try done.
  f_equal. by apply insert_insert_ne.
Qed.

Lemma X6_updates_commute_witness :
  after (updateOpeningBook "8/7" "a2a3")
    (after (updateOpeningBook "8/8" "e2e4") Engine_new) =
  after (updateOpeningBook "8/8" "e2e4")
    (after (updateOpeningBook "8/7" "a2a3") Engine_new).
Proof.
  apply (X6_updates_commute Engine_new "8/8" "8/7" "e2e4" "a2a3").
  discriminate.
Defined.

(** X7. What the seeding does to earlier entries.  The first [initialize]
    stores [e2e4] for the initial position over whatever
    [updateOpeningBook] had stored there before, and keeps the entry of
    every other position; on an engine that is already Ready [initialize]
    seeds nothing, so an entry stored for the initial position after the
    first [initialize] survives a second one. *)
Theorem X7_seeding_overwrites_only_startpos e cfg m :
  (Uninitialized e →
     let e' := after (initialize cfg) (after (updateOpeningBook startpos m) e) in
     result (queryOpeningBook startpos) e' = "e2e4" ∧
     ∀ k, k ≠ startpos → opening_book_ e' !! k = opening_book_ e !! k) ∧
  (Ready e →
     let e' := after (initialize cfg) (after (updateOpeningBook startpos m) e) in
     result (queryOpeningBook startpos) e' = m ∧
     ∀ k, k ≠ startpos → opening_book_ e' !! k = opening_book_ e !! k).
Proof.
  assert (Hv : validateFEN startpos = true) by reflexivity.
  split; intros He e'; subst e'; unfold after;
    rewrite updateOpeningBook_valid by done; simpl.
  - rewrite initialize_Uninitialized by done. simpl.
    rewrite queryOpeningBook_result. simpl. rewrite lookup_insert_eq.
    split; [done |]. intros k Hk. by rewrite !lookup_insert_ne.
  - rewrite initialize_Ready by done. simpl.
    rewrite queryOpeningBook_result. simpl. rewrite lookup_insert_eq.
    split; [done |]. intros k Hk. by rewrite lookup_insert_ne.
Qed.

Lemma X7_seeding_overwrites_only_startpos_witness :
  result (queryOpeningBook startpos)
    (after (initialize "")
       (after (updateOpeningBook startpos "d2d4") Engine_new)) = "e2e4" ∧
  result (queryOpeningBook startpos)
    (after (initialize "")
       (after (updateOpeningBook startpos "d2d4") session_engine)) = "d2d4".
Proof.
  split.
  - refine (proj1 (proj1 (X7_seeding_overwrites_only_startpos
                            Engine_new "" "d2d4") _)). reflexivity.
  - refine (proj1 (proj2 (X7_seeding_overwrites_only_startpos
                            session_engine "" "d2d4") _)). reflexivity.
Defined.

End Book.

Section Errors.

Implicit Types (e : Engine) (p line : string) (t d : Z).

(** X8. The two error strings tell exactly what went wrong.  [getBestMove]
    and [analyzePosition] return ["error engine not initialized"] exactly
    on an Uninitialized engine and ["error invalid fen"] exactly on a Ready
    engine with a position that fails validation, and [processCommand]
    returns the first of them exactly on an Uninitialized engine: no
    successful response, whatever the book holds, equals an error string. *)
Theorem X8_error_strings_are_exact e p line t d :
  (result (getBestMove p t) e = "error engine not initialized"
     ↔ Uninitialized e) ∧
  (result (getBestMove p t) e = "error invalid fen"
     ↔ Ready e ∧ validateFEN p = false) ∧
  (result (analyzePosition p d) e = "error engine not initialized"
     ↔ Uninitialized e) ∧
  (result (analyzePosition p d) e = "error invalid fen"
     ↔ Ready e ∧ validateFEN p = false) ∧
  (result (processCommand line) e = "error engine not initialized"
     ↔ Uninitialized e).
Proof.
  unfold Ready, Uninitialized.
  destruct (initialized_ e) eqn:Hi.
  - assert (Hp : ∀ s, result (processCommand line) e = s →
                      s ≠ "error engine not initialized").
    { intros s <-. run_member processCommand. rewrite Hi. simpl.
      by repeat case_match. }
    destruct (validateFEN p) eqn:Hv.
    + rewrite getBestMove_valid by done. simpl.
      assert (Ha : analyzePosition p d e =
                (("info depth " +:+ Std.to_string d)
                   +:+ " score cp 100 pv e2e4 e7e5" +:+ LF, e)).
      { run_member analyzePosition. by rewrite Hi, Hv. }
      unfold result at 1 2. rewrite Ha. simpl.
      destruct (Std.empty _); repeat split; try done;
        try (intros [_ ?]; done); by intros ?%Hp.
    + unfold result at 1 2 3 4.
      rewrite getBestMove_invalid, analyzePosition_invalid by done. simpl.
      repeat split; try done; by intros ?%Hp.
  - unfold result.
    rewrite getBestMove_Uninitialized, analyzePosition_Uninitialized,
      processCommand_Uninitialized by done. simpl.
    repeat split; try done; by intros [? _].
Qed.

Lemma X8_error_strings_are_exact_witness :
  result (getBestMove "nofences" 1000) session_engine = "error invalid fen".
Proof.
  apply (proj1 (proj2 (X8_error_strings_are_exact
                         session_engine "nofences" "" 1000 20))).
  split; reflexivity.
Defined.

Lemma string_length_app (a b : string) :
  String.length (a +:+ b) = String.length a + String.length b.
Proof. induction a as [|c a IH]; simpl; [done | by rewrite IH]. Qed.

Lemma string_app_inv_tail (a b s : string) : a +:+ s = b +:+ s → a = b.
Proof.
  revert b. induction a as [|c a IH]; intros [|c' b] H; simpl in H.
  - done.
  - apply (f_equal String.length) in H.
    rewrite !string_length_app in H. simpl in H. lia.
  - apply (f_equal String.length) in H.
    rewrite !string_length_app in H. simpl in H. lia.
  - injection H as -> H. f_equal. by apply IH.
Qed.

(** X9. The analysis line carries the depth it was asked for.  On Ready
    engines and for positions that pass validation, two calls of
    [analyzePosition] return the same response only if they were given the
    same depth, and the numeral between ["info depth "] and [" score"]
    reads back as that depth. *)
Theorem X9_analysis_line_determines_depth e e' p p' d d' :
  Ready e → Ready e' →
  validateFEN p = true → validateFEN p' = true →
  (result (analyzePosition p d) e = result (analyzePosition p' d') e' →
     d = d') ∧
  ∃ numeral,
    result (analyzePosition p d) e =
      "info depth " +:+ numeral +:+ " score cp 100 pv e2e4 e7e5" +:+ LF ∧
    read_decimal numeral = Some d.
Proof.
  unfold Ready. intros Hr Hr' Hv Hv'.
  assert (H : ∀ e p d, initialized_ e = true → validateFEN p = true →
    result (analyzePosition p d) e =
      "info depth " +:+ (Std.to_string d
         +:+ " score cp 100 pv e2e4 e7e5" +:+ LF)).
  { clear. intros e p d Hr Hv. run_member analyzePosition.
    by rewrite Hr, Hv. }
  split.
  - rewrite !H by done. intros Heq.
    apply (inj (String.append "info depth ")) in Heq.
    apply string_app_inv_tail in Heq. by apply to_string_inj.
  - exists (Std.to_string d). split; [by apply H | apply read_to_string].
Qed.

Lemma X9_analysis_line_determines_depth_witness :
  ∃ numeral,
    result (analyzePosition "8/8" (-3)) session_engine =
      "info depth " +:+ numeral +:+ " score cp 100 pv e2e4 e7e5" +:+ LF ∧
    read_decimal numeral = Some (-3)%Z.
Proof.
  refine (proj2 (X9_analysis_line_determines_depth
                   session_engine session_engine "8/8" "8/8" (-3) (-3)
                   _ _ _ _)); reflexivity.
Defined.

End Errors.

Section Invariants.

Implicit Types (e : Engine) (c : Call) (cs : list Call) (k p : string).

(** X10. The lifecycle only moves forward.  No sequence of calls takes a
    Ready engine back to Uninitialized, and a new engine is Ready after a
    sequence of calls exactly when [initialize] is one of them. *)
Theorem X10_lifecycle_only_moves_forward cs e :
  (Ready e → Ready (history cs e)) ∧
  (Ready (history cs Engine_new) ↔ ∃ cfg, CallInitialize cfg ∈ cs).
Proof. split; [apply Ready_preserved | apply Ready_history]. Qed.

Lemma X10_lifecycle_only_moves_forward_witness :
  Ready (history [CallUpdateOpeningBook "8/8" ""; CallProcessCommand "quit";
                  CallInitialize "book.bin"] session_engine).
Proof.
  refine (proj1 (X10_lifecycle_only_moves_forward _ session_engine) _).
  reflexivity.
Defined.

Lemma history_app cs cs' e :
  history (cs ++ cs') e = history cs' (history cs e).
Proof. unfold history. apply foldl_app. Qed.

(** What a single call does to the book. *)
Lemma perform_book c e :
  opening_book_ (perform c e) = opening_book_ e ∨
  (∃ cfg, c = CallInitialize cfg ∧ Uninitialized e ∧
     opening_book_ (perform c e) = <[startpos := "e2e4"]> (opening_book_ e)) ∨
  (∃ fen move, c = CallUpdateOpeningBook fen move ∧ validateFEN fen = true ∧
     opening_book_ (perform c e) = <[fen := move]> (opening_book_ e)).
Proof.
  destruct c as [cfg | l | f d | f t | f | f m]; simpl.
  - destruct (initialized_ e) eqn:Hi.
    + left. unfold after. by rewrite initialize_Ready.
    + right. left. exists cfg. unfold after.
      by rewrite initialize_Uninitialized.
  - left. by rewrite processCommand_after.
  - left. by rewrite analyzePosition_after.
  - left. by rewrite getBestMove_after.
  - left. by rewrite queryOpeningBook_after.
  - destruct (validateFEN f) eqn:Hv.
    + right. right. exists f, m. unfold after.
      by rewrite updateOpeningBook_valid.
    + left. unfold after. by rewrite updateOpeningBook_invalid.
Qed.

(** X11. Every key of the book passes validation.  On an engine obtained
    from a new one by any calls, each position that has an entry in the
    opening book passes [validateFEN]; so [queryOpeningBook] on a position
    that fails validation finds nothing and returns the empty string. *)
Theorem X11_book_keys_are_valid e p :
  reachable e →
  (is_Some (opening_book_ e !! p) → validateFEN p = true) ∧
  (validateFEN p = false → result (queryOpeningBook p) e = "").
Proof.
  intros [cs ->].
  assert (Hinv : ∀ k, is_Some (opening_book_ (history cs Engine_new) !! k) →
                      validateFEN k = true).
  { induction cs as [|c cs IH] using rev_ind.
    - intros k [m Hm]. simpl in Hm. by rewrite lookup_empty in Hm.
    - intros k. rewrite history_app. simpl.
      destruct (perform_book c (history cs Engine_new))
        as [-> | [(cfg & _ & _ & ->) | (f & m & _ & Hv & ->)]]; [apply IH | |].
      + rewrite lookup_insert. case_decide as Hk; [by intros _; subst k | apply IH].
      + rewrite lookup_insert. case_decide as Hk; [by intros _; subst k | apply IH]. }
  split; [apply Hinv |].
  intros Hv. rewrite queryOpeningBook_result.
  destruct (opening_book_ _ !! p) as [m|] eqn:Hm; [| done].
  rewrite Hinv in Hv by (by rewrite Hm). done.
Qed.

Lemma X11_book_keys_are_valid_witness :
  result (queryOpeningBook "nofences")
    (history [CallUpdateOpeningBook "nofences" "e2e4"; CallInitialize ""]
       Engine_new) = "".
Proof.
  refine (proj2 (X11_book_keys_are_valid _ "nofences" _) _).
  - eexists. reflexivity.
  - reflexivity.
Defined.

(** X12. No entry is ever removed.  A position that has an entry in the
    opening book still has one after any sequence of calls: the book only
    grows, and an entry changes only by an [updateOpeningBook] of its own
    position or, for the initial position, by the seeding. *)
Theorem X12_book_never_shrinks cs e p :
  is_Some (opening_book_ e !! p) →
  is_Some (opening_book_ (history cs e) !! p) ∧
  (p ≠ startpos →
   (∀ move, CallUpdateOpeningBook p move ∉ cs) →
   opening_book_ (history cs e) !! p = opening_book_ e !! p).
Proof.
  intros Hp. induction cs as [|c cs IH] using rev_ind; [done |].
  rewrite history_app. simpl.
  destruct IH as [IH1 IH2]. split.
  - destruct (perform_book c (history cs e))
      as [-> | [(cfg & _ & _ & ->) | (f & m & _ & _ & ->)]]; [done | |];
      rewrite lookup_insert; by case_decide.
  - intros Hne Hnot. rewrite <- IH2; [| done |].
    + destruct (perform_book c (history cs e))
        as [-> | [(cfg & _ & _ & ->) | (f & m & -> & _ & ->)]]; [done | |].
      * by rewrite lookup_insert_ne.
      * rewrite lookup_insert_ne; [done |]. intros ->.
        apply (Hnot m). set_solver.
    + intros move Hin. apply (Hnot move). set_solver.
Qed.

Lemma X12_book_never_shrinks_witness :
  is_Some (opening_book_
             (history [CallUpdateOpeningBook startpos ""; CallInitialize "";
                       CallGetBestMove startpos 5]
                session_engine) !! startpos).
Proof.
  refine (proj1 (X12_book_never_shrinks _ session_engine startpos _)).
  exists "e2e4". vm_compute. reflexivity.
Defined.

End Invariants.

Section SessionFacts.

Implicit Types (e : Engine) (line : string) (lines : list string).

Lemma processCommand_Ready_response line e :
  Ready e → result (processCommand line) e ∈ command_responses.
Proof.
  unfold Ready, command_responses. intros Hr.
  run_member processCommand. rewrite Hr. simpl.
  repeat case_match; set_solver.
Qed.

Lemma uci_loop_shape lines e :
  ∃ n, n ≤ length lines ∧
    uci_loop lines e =
      (((λ l, result (processCommand l) e) <$> take n lines, drop n lines), e).
Proof.
  induction lines as [|line lines (n & Hn & IH)].
  - by exists 0.
  - rewrite uci_loop_cons. destruct (String.eqb line "quit").
    + exists 1. split; [simpl; lia |]. simpl. by rewrite drop_0.
    + exists (S n). split; [simpl; lia |]. by rewrite IH.
Qed.

(** X13. What a session writes.  Whatever the input lines, [main] ends
    with exit code 0; it answers a first part of the lines, in order and
    one response each, and leaves the rest unread; and every response is
    one of the four command responses, never an error string, the engine
    having been initialized before the first line is read. *)
Theorem X13_session_output_shape (cin : list string) :
  exit_code (main cin) = 0%Z ∧
  (∃ n, n ≤ length cin ∧
     cout (main cin) = session_response <$> take n cin ∧
     unread (main cin) = drop n cin) ∧
  length (cout (main cin)) + length (unread (main cin)) = length cin ∧
  (∀ r, r ∈ cout (main cin) → r ∈ command_responses).
Proof.
  rewrite main_eq. simpl.
  destruct (uci_loop_shape cin session_engine) as (n & Hn & ->). simpl.
  split; [done |]. split; [by exists n |]. split.
  - rewrite length_fmap, length_take, length_drop. lia.
  - intros r (l & -> & _)%list_elem_of_fmap.
    by apply processCommand_Ready_response.
Qed.

End SessionFacts.

Section StdinFacts.

Implicit Types (e : Engine) (s l line tail input : string)
  (ls pre : list string).

Lemma lines_read_line c s :
  lines (String c s) =
    (Stdin.read_line (String c s)).1 :: lines (Stdin.read_line (String c s)).2.
Proof.
  revert c. induction s as [|x s IH]; intros c; simpl.
  - by destruct (Ascii.eqb c "010").
  - destruct (Ascii.eqb c "010"); [done |].
    specialize (IH x). simpl in IH. rewrite IH.
    destruct (Ascii.eqb x "010"); [done |].
    by destruct (Stdin.read_line s).
Qed.

Lemma read_line_shorter s :
  String.length (Stdin.read_line s).2 ≤ String.length s.
Proof.
  induction s as [|c s IH]; simpl; [done |].
  destruct (Ascii.eqb c "010"); simpl; [lia |].
  destruct (Stdin.read_line s); simpl in *. lia.
Qed.

Lemma getline_Some s line s' :
  Stdin.getline s = Some (line, s') →
  lines s = line :: lines s' ∧ String.length s' < String.length s.
Proof.
  destruct s as [|c s]; [done |]. intros [= H]. split.
  - rewrite lines_read_line. simpl. by rewrite H.
  - pose proof (read_line_shorter s) as Hs. simpl in *.
    destruct (Ascii.eqb c "010").
    + injection H as _ <-. lia.
    + destruct (Stdin.read_line s). injection H as _ <-. simpl in Hs. lia.
Qed.

(** With more fuel than characters the loop reaches its end, and it writes
    what the loop over the lines of the text writes. *)
Lemma stdin_loop_lines fuel s e :
  String.length s < fuel →
  ∃ rest, Stdin.loop fuel s e = (Some ((uci_loop (lines s) e).1.1, rest), e).
Proof.
  revert s. induction fuel as [|fuel IH]; intros s Hlen; [lia |]. simpl.
  destruct (Stdin.getline s) as [[line s']|] eqn:Hg.
  - apply getline_Some in Hg as [-> Hs']. rewrite uci_loop_cons.
    unfold bind at 1.
    rewrite (run_eq (processCommand line) e), processCommand_after.
    destruct (String.eqb line "quit"); [by exists s' |].
    destruct (IH s') as (rest & Hrest); [lia |].
    exists rest. unfold bind, ret. by rewrite Hrest.
  - destruct s; [| done]. by exists "".
Qed.

Lemma stdin_main_lines input :
  ∃ rest, Stdin.main input = Some (0%Z, cout (main (lines input)), rest).
Proof.
  destruct (stdin_loop_lines (S (String.length input)) input session_engine)
    as (rest & H); [lia |].
  exists rest. unfold Stdin.main.
  rewrite (run_eq (initialize "") Engine_new), initialize_true.
  change (after (initialize "") Engine_new) with session_engine.
  remember (S (String.length input)) as fuel. simpl.
  unfold result. rewrite H. simpl. by rewrite main_eq.
Qed.

(** X14. The session on raw standard input.  For every content of
    standard input the loop of [main] comes to an end, with exit code 0,
    and writes exactly what the session writes on the lines of that
    content, a last line without a line feed included. *)
Theorem X14_stdin_session_agrees_with_lines input :
  ∃ rest, Stdin.main input = Some (0%Z, cout (main (lines input)), rest).
Proof. apply stdin_main_lines. Qed.

Lemma string_app_assoc (a b c : string) : (a +:+ b) +:+ c = a +:+ b +:+ c.
Proof.
  induction a as [|x a IH]; [done | exact (f_equal (String x) IH)].
Qed.

Lemma read_line_line l s :
  no_LF l → Stdin.read_line (l +:+ LF +:+ s) = (l, s).
Proof.
  unfold no_LF. induction l as [|c l IH]; simpl; [done |].
  intros [Hc Hl]%andb_true_iff. apply negb_true_iff in Hc.
  rewrite Hc. by rewrite IH.
Qed.

Lemma getline_line l s :
  no_LF l → Stdin.getline (l +:+ LF +:+ s) = Some (l, s).
Proof.
  intros Hl. rewrite <- (read_line_line l s Hl). by destruct l.
Qed.

Lemma lines_unlines ls : Forall no_LF ls → lines (unlines ls) = ls.
Proof.
  induction 1 as [|l ls Hl _ IH]; [done |]. simpl.
  destruct (getline_Some _ _ _ (getline_line l (unlines ls) Hl)) as [-> _].
  by rewrite IH.
Qed.

(** X15. Lines in, lines answered.  For lines that hold no line feed, the
    text made of them, each ended by a line feed, is split back into the
    same lines, and [main] on that text writes what the session writes on
    the lines. *)
Theorem X15_stdin_session_on_lines ls :
  Forall no_LF ls →
  lines (unlines ls) = ls ∧
  ∃ rest, Stdin.main (unlines ls) = Some (0%Z, cout (main ls), rest).
Proof.
  intros Hls. split; [by apply lines_unlines |].
  destruct (stdin_main_lines (unlines ls)) as (rest & H).
  exists rest. by rewrite H, lines_unlines.
Qed.

Lemma X15_stdin_session_on_lines_witness :
  lines (unlines ["uci"; ""; "quit"; "isready"]) =
    ["uci"; ""; "quit"; "isready"].
Proof.
  refine (proj1 (X15_stdin_session_on_lines ["uci"; ""; "quit"; "isready"] _)).
  repeat constructor.
Defined.

Lemma stdin_loop_S fuel s e :
  Stdin.loop (S fuel) s e =
    match Stdin.getline s with
    | None => (Some ([], s), e)
    | Some (line, s') =>
        if String.eqb line "quit"
        then (Some ([result (processCommand line) e], s'), e)
        else ((λ r, (result (processCommand line) e :: r.1, r.2)) <$>
                (Stdin.loop fuel s' e).1, (Stdin.loop fuel s' e).2)
    end.
Proof.
  simpl. destruct (Stdin.getline s) as [[line s']|]; [| done].
  unfold bind at 1.
  rewrite (run_eq (processCommand line) e), processCommand_after.
  destruct (String.eqb line "quit"); [done |].
  unfold bind, ret. by destruct (Stdin.loop fuel s' e).
Qed.

Lemma stdin_loop_quit pre tail e fuel :
  length pre < fuel → Forall no_LF pre → "quit" ∉ pre →
  Stdin.loop fuel (unlines pre +:+ "quit" +:+ LF +:+ tail) e =
    (Some (((λ l, result (processCommand l) e) <$> pre)
             ++ [result (processCommand "quit") e], tail), e).
Proof.
  revert fuel. induction pre as [|l pre IH]; intros [|fuel] Hlen Hpre Hq;
    simpl in Hlen; try lia; rewrite stdin_loop_S.
  - change (unlines [] +:+ "quit" +:+ LF +:+ tail)
      with ("quit" +:+ LF +:+ tail).
    by rewrite getline_line.
  - apply Forall_cons in Hpre as [Hl Hpre].
    apply not_elem_of_cons in Hq as [Hne Hq].
    change (unlines (l :: pre)) with (l +:+ LF +:+ unlines pre).
    rewrite !string_app_assoc, getline_line by done.
    destruct (String.eqb_spec l "quit") as [-> | _]; [done |].
    rewrite IH by (done || lia). done.
Qed.

Lemma unlines_length ls : length ls ≤ String.length (unlines ls).
Proof.
  induction ls as [|l ls IH]; simpl; [done |].
  rewrite !string_length_app. simpl. lia.
Qed.

(** X16. What follows the [quit] line stays in the stream.  When standard
    input holds lines without a line feed in them, none of them [quit],
    then the line [quit], then anything at all, [main] answers the lines
    and the [quit] line, ends with exit code 0, and leaves what follows the
    [quit] line unread, character for character. *)
Theorem X16_stdin_quit_leaves_tail_unread pre tail :
  Forall no_LF pre →
  "quit" ∉ pre →
  Stdin.main (unlines pre +:+ "quit" +:+ LF +:+ tail) =
    Some (0%Z, (session_response <$> pre) ++ ["quit" +:+ LF], tail).
Proof.
  intros Hpre Hq. unfold Stdin.main.
  rewrite (run_eq (initialize "") Engine_new), initialize_true.
  change (after (initialize "") Engine_new) with session_engine.
  remember (S (String.length _)) as fuel eqn:Hfuel. simpl.
  unfold result. rewrite stdin_loop_quit; [done | | done | done].
  rewrite Hfuel, string_length_app.
  pose proof (unlines_length pre). lia.
Qed.

Lemma X16_stdin_quit_leaves_tail_unread_witness :
  Stdin.main (unlines ["uci"; "quit now"] +:+ "quit" +:+ LF +:+ "isready") =
    Some (0%Z, (session_response <$> ["uci"; "quit now"]) ++ ["quit" +:+ LF],
          "isready").
Proof.
  apply (X16_stdin_quit_leaves_tail_unread ["uci"; "quit now"] "isready").
  - repeat constructor.
  - rewrite !not_elem_of_cons.
    repeat split; (discriminate || apply not_elem_of_nil).
Defined.

Lemma lines_last_line_feed s (c : ascii) :
  c ≠ "010"%char →
  lines (s +:+ String c LF) = lines (s +:+ String c "").
Proof.
  intros Hc. apply Ascii.eqb_neq in Hc.
  induction s as [|x s IH].
  - change (lines (String c LF) = lines (String c "")).
    simpl. by rewrite Hc.
  - change (lines (String x (s +:+ String c LF)) =
            lines (String x (s +:+ String c ""))).
    simpl. by rewrite IH.
Qed.

(** X17. The line feed after the last line is optional.  When the content
    of standard input ends with a character other than a line feed, [main]
    writes the same responses as on that content with a line feed added:
    the unfinished last line is answered like a finished one. *)
Theorem X17_last_line_needs_no_line_feed s (c : ascii) :
  c ≠ "010"%char →
  (λ r, r.1) <$> Stdin.main (s +:+ String c LF) =
  (λ r, r.1) <$> Stdin.main (s +:+ String c "").
Proof.
  intros Hc.
  destruct (stdin_main_lines (s +:+ String c LF)) as (rest & ->).
  destruct (stdin_main_lines (s +:+ String c "")) as (rest' & ->).
  simpl. by rewrite lines_last_line_feed.
Qed.

Lemma X17_last_line_needs_no_line_feed_witness :
  (λ r, r.1) <$> Stdin.main ("uci" +:+ LF +:+ "isready" +:+ LF) =
  (λ r, r.1) <$> Stdin.main ("uci" +:+ LF +:+ "isready").
Proof.
  apply (X17_last_line_needs_no_line_feed ("uci" +:+ LF +:+ "isread") "y").
  discriminate.
Defined.

End StdinFacts.
